(** * github-coda-pack: the pack definition ([src/pack.ts])

    A shallow embedding of the Coda pack that exposes GitHub repositories,
    pull requests and issues.  The file follows the source: the JavaScript
    string and truthiness primitives the pack relies on, the parameter
    declarations, the [RepoUrlParameter.autocomplete] aggregation loop,
    and the helper layer the sync formulas delegate to. *)

From Stdlib Require Import String Ascii List ZArith Bool Arith Lia.
Import ListNotations.

Local Open Scope string_scope.
Local Open Scope list_scope.

(* ===================================================================== *)
(** ** JavaScript primitives used by the pack *)
(* ===================================================================== *)

Module Js.

(** [String.prototype.startsWith]. *)
Fixpoint startsWith (s p : string) : bool :=
  match p, s with
  | EmptyString, _ => true
  | String _ _, EmptyString => false
  | String a p', String b s' => Ascii.eqb a b && startsWith s' p'
  end.

(** [String.prototype.includes]: [includes s sub] looks for [sub] at
    every position of [s], left to right. *)
Fixpoint includes (s sub : string) : bool :=
  startsWith s sub ||
  match s with
  | EmptyString => false
  | String _ s' => includes s' sub
  end.

(** Truthiness of a string: every string but the empty one. *)
Definition truthy_string (s : string) : bool :=
  negb (String.eqb s "").

(** [String.prototype.split] on a one-character separator. *)
Fixpoint split (sep : ascii) (s : string) : list string :=
  match s with
  | EmptyString => [EmptyString]
  | String c s' =>
      if Ascii.eqb c sep then EmptyString :: split sep s'
      else match split sep s' with
           | [] => [String c EmptyString]
           | w :: ws => String c w :: ws
           end
  end.

(** A character occurs in a string. *)
Fixpoint has_char (c : ascii) (s : string) : bool :=
  match s with
  | EmptyString => false
  | String d s' => Ascii.eqb d c || has_char c s'
  end.

End Js.

(* ===================================================================== *)
(** ** Data exchanged with the helper layer *)
(* ===================================================================== *)

(** [types.GitHubRepo]: the repository object of the service; the pack
    reads [name] and [html_url]. *)
Record GitHubRepo : Type := mkRepo {
  id : Z;
  name : string;
  html_url : string
}.

(** [coda.Continuation]: an object whose values are strings, numbers or
    flat objects of those.  Kept as the list of its own properties. *)
Inductive ContinuationValue : Type :=
| CStr (s : string)
| CNum (n : Z)
| CObj (fields : list (string * (string + Z))).

Definition Continuation : Type := list (string * ContinuationValue).

(** Property read [c.key]; [None] is [undefined]. *)
Fixpoint get_property (key : string) (c : Continuation)
  : option ContinuationValue :=
  match c with
  | [] => None
  | (k, v) :: c' => if String.eqb k key then Some v else get_property key c'
  end.

(** Truthiness of a property value ([undefined] is falsy, an object is
    always truthy). *)
Definition truthy (v : option ContinuationValue) : bool :=
  match v with
  | None => false
  | Some (CStr s) => Js.truthy_string s
  | Some (CNum n) => negb (Z.eqb n 0)
  | Some (CObj _) => true
  end.

(** The errors a step can surface. *)
Inductive ErrorKind : Type :=
| InvalidReferenceError
| UnsupportedResourceError
| TransientFetchError
| RemoteRejectedError (status : Z) (body : string)
| MalformedResponseError.

(** What [helpers.getRepos] resolves to: one page and the continuation
    of the next one, if any. *)
Record ReposResponse : Type := mkResponse {
  result : list GitHubRepo;
  continuation : option Continuation
}.

(** The state of an [async] function observed after a bounded number of
    loop iterations. *)
Inductive Outcome (A : Type) : Type :=
| Resolved (a : A)
| Rejected (e : ErrorKind)
| Pending.
Arguments Resolved {A} a.
Arguments Rejected {A} e.
Arguments Pending {A}.

(** An entry of the autocomplete dropdown. *)
Record MetadataFormulaObjectResult : Type := mkEntry {
  display : string;
  value : string
}.

(** Modelled from the spec: [coda.autocompleteSearchObjects] belongs to
    the SDK and is not part of the sources.  It keeps, in their order, the
    objects whose display property contains the search text, compared
    without regard to case, and labels each with its display and value
    properties.  Case is set aside by passing both strings through
    [String.prototype.toLowerCase]; that case mapping is the JavaScript
    engine's, after the Unicode tables, and is taken as the parameter
    [toLowerCase]. *)
Definition autocompleteSearchObjects {T : Type}
    (toLowerCase : string -> string) (search : string)
    (objs : list T) (displayKey valueKey : T -> string)
  : list MetadataFormulaObjectResult :=
  let normalizedSearch := toLowerCase search in
  let filtered :=
    filter (fun o => Js.includes (toLowerCase (displayKey o)) normalizedSearch)
           objs in
  map (fun o => mkEntry (displayKey o) (valueKey o)) filtered.

(* ===================================================================== *)
(** ** [RepoUrlParameter.autocomplete] *)
(* ===================================================================== *)

Section Autocomplete.

(** The execution context: the remote service as the fetcher sees it.
    [getRepos] performs one request, which may change what the service
    answers next. *)
Variable Context : Type.
Variable getRepos :
  Context -> option Continuation -> (ErrorKind + ReposResponse) * Context.

(** [String.prototype.toLowerCase] of the JavaScript engine, which the
    search applies to the search text and to the names. *)
Variable toLowerCase : string -> string.

(** The loop condition [continuation && continuation.nextUrl]. *)
Definition loop_condition (cont : option Continuation) : bool :=
  match cont with
  | None => false
  | Some c => truthy (get_property "nextUrl" c)
  end.

(** The arguments of the calls made to [getRepos], oldest first. *)
Definition Trace : Type := list (option Continuation).

(** The [do { ... } while (...)] loop, one iteration per unit of fuel;
    [cont] is the variable [continuation] of the source.
    [results.concat(...response.result)] appends the page, the records
    being plain objects. *)
Fixpoint do_while (fuel : nat) (context : Context)
    (results : list GitHubRepo) (cont : option Continuation)
    (trace : Trace)
  : Outcome (list GitHubRepo) * Context * Trace :=
  match fuel with
  | O => (Pending, context, trace)
  | S fuel' =>
      match getRepos context cont with
      | (inl e, context') => (Rejected e, context', trace ++ [cont])
      | (inr response, context') =>
          let results' := results ++ result response in
          let cont' := continuation response in
          if loop_condition cont'
          then do_while fuel' context' results' cont' (trace ++ [cont])
          else (Resolved results', context', trace ++ [cont])
      end
  end.

(** The records handed to [coda.autocompleteSearchObjects]. *)
Definition collect (fuel : nat) (context : Context)
  : Outcome (list GitHubRepo) * Context * Trace :=
  do_while fuel context [] None [].

Definition autocomplete (fuel : nat) (context : Context) (search : string)
  : Outcome (list MetadataFormulaObjectResult) :=
  match collect fuel context with
  | (Resolved results, _, _) =>
      Resolved (autocompleteSearchObjects toLowerCase search results name
                                          html_url)
  | (Rejected e, _, _) => Rejected e
  | (Pending, _, _) => Pending
  end.

(** *** Runs of the service

    [pages_from context c rs context'] : asked for [c], then for each
    continuation it hands back, the service answers the pages [rs]; all
    but the last carry a continuation with a truthy [nextUrl]. *)
Inductive pages_from
  : Context -> option Continuation -> list ReposResponse -> Context -> Prop :=
| pages_last : forall context c r context',
    getRepos context c = (inr r, context') ->
    loop_condition (continuation r) = false ->
    pages_from context c [r] context'
| pages_next : forall context c r context' rs context'',
    getRepos context c = (inr r, context') ->
    loop_condition (continuation r) = true ->
    pages_from context' (continuation r) rs context'' ->
    pages_from context c (r :: rs) context''.

(** [pages_fail context c rs e context'] : the service answers the
    pages [rs], each asking for a next one, and then fails with [e]. *)
Inductive pages_fail
  : Context -> option Continuation -> list ReposResponse -> ErrorKind
    -> Context -> Prop :=
| fail_here : forall context c e context',
    getRepos context c = (inl e, context') ->
    pages_fail context c [] e context'
| fail_later : forall context c r context' rs e context'',
    getRepos context c = (inr r, context') ->
    loop_condition (continuation r) = true ->
    pages_fail context' (continuation r) rs e context'' ->
    pages_fail context c (r :: rs) e context''.

(** The records of a run, in page order. *)
Definition records_of (rs : list ReposResponse) : list GitHubRepo :=
  concat (map result rs).

(** The requests of a run that starts with [c]: [c], then the
    continuation of every page but the last. *)
Definition requests_of (c : option Continuation) (rs : list ReposResponse)
  : Trace :=
  c :: map continuation (removelast rs).

End Autocomplete.

Arguments do_while {Context} getRepos fuel context results cont trace.
Arguments collect {Context} getRepos fuel context.
Arguments autocomplete {Context} getRepos toLowerCase fuel context search.
Arguments pages_from {Context} getRepos _ _ _ _.
Arguments pages_fail {Context} getRepos _ _ _ _ _.

(* ===================================================================== *)
(** ** Parameter and formula declarations *)
(* ===================================================================== *)

Definition HOST : string := "github.com".
Definition API_ENDPOINT : string := "https://" ++ HOST ++ "/api/v4".

(** [coda.ParameterType], the scalar and the array types. *)
Inductive ParameterType : Type :=
| PString | PNumber | PBoolean | PDate | PHtml | PImage
| PStringArray | PNumberArray | PBooleanArray | PDateArray.

(** The [autocomplete] property of a parameter: absent, a formula, or a
    fixed list of [{display, value}] options. *)
Inductive AutocompleteDef : Type :=
| NoAutocomplete
| AutocompleteFormula
| AutocompleteOptions (options : list MetadataFormulaObjectResult).

(** The object handed to [coda.makeParameter]; [optional] is [None]
    where the declaration leaves it out.  Quotation marks inside the
    descriptions are written as apostrophes. *)
Record ParamDef : Type := mkParam {
  param_type : ParameterType;
  param_name : string;
  param_description : string;
  param_optional : option bool;
  param_autocomplete : AutocompleteDef
}.

(** A parameter must be given unless it is declared [optional: true]. *)
Definition is_optional (p : ParamDef) : bool :=
  match param_optional p with
  | Some b => b
  | None => false
  end.

Definition is_required (p : ParamDef) : bool := negb (is_optional p).

(** Modelled from the spec: [types.PullRequestStateFilter] is declared in
    [types.ts], which is not part of the sources; the state filter is the
    enumeration open, closed, all. *)
Inductive PullRequestStateFilter : Type := Open | Closed | All.

Definition state_value (s : PullRequestStateFilter) : string :=
  match s with
  | Open => "open"
  | Closed => "closed"
  | All => "all"
  end.

Definition RepoUrlParameter : ParamDef :=
  mkParam PString "repoUrl"
    "The URL of the repository to list pull requests from. For example, 'https://github.com/[org]/[repo]'."
    None AutocompleteFormula.

Definition BaseParameterOptional : ParamDef :=
  mkParam PString "base"
    "The name of the base branch. For example, 'main'."
    (Some true) NoAutocomplete.

Definition PullRequestStateOptional : ParamDef :=
  mkParam PString "state"
    "Returns pull requests in the given state. If unspecified, defaults to 'open'."
    (Some true)
    (AutocompleteOptions
       [ mkEntry "Open pull requests only" (state_value Open);
         mkEntry "Closed pull requests only" (state_value Closed);
         mkEntry "All pull requests" (state_value All) ]).

Definition IssueStateOptional : ParamDef :=
  mkParam PString "state"
    "Returns issues in the given state. If unspecified, defaults to 'open'."
    (Some true)
    (AutocompleteOptions
       [ mkEntry "Open issues only" "open";
         mkEntry "Closed issues only" "closed";
         mkEntry "All issues" "all" ]).

Definition IssueNumberParameter : ParamDef :=
  mkParam PNumber "issueNumber" "The number of the issue." None NoAutocomplete.

Definition IssueTitleParameter : ParamDef :=
  mkParam PString "title" "The title of the issue." (Some true) NoAutocomplete.

Definition IssueBodyParameter : ParamDef :=
  mkParam PString "body" "The body content of the issue." (Some true)
    NoAutocomplete.

Definition IssueStateParameter : ParamDef :=
  mkParam PString "state"
    "The state of the issue. Can be 'open' or 'closed'."
    (Some true)
    (AutocompleteOptions [ mkEntry "Open" "open"; mkEntry "Closed" "closed" ]).

Definition TitleParameter : ParamDef :=
  mkParam PString "title" "The title of the issue." None NoAutocomplete.

Definition BodyParameter : ParamDef :=
  mkParam PString "body" "The body content of the issue." (Some true)
    NoAutocomplete.

Definition LabelsParameter : ParamDef :=
  mkParam PString "labels"
    "Comma-separated list of labels to assign to the issue."
    (Some true) NoAutocomplete.

Definition AssigneesParameter : ParamDef :=
  mkParam PString "assignees"
    "Comma-separated list of assignees for the issue."
    (Some true) NoAutocomplete.

(** A formula as [pack.addFormula] and [pack.addSyncTable] receive it. *)
Record FormulaDef : Type := mkFormula {
  formula_name : string;
  formula_description : string;
  formula_parameters : list ParamDef
}.

Definition PullRequestsFormula : FormulaDef :=
  mkFormula "PullRequests" "Sync pull requests from GitHub."
    [ RepoUrlParameter; BaseParameterOptional; PullRequestStateOptional ].

Definition SyncIssuesFormula : FormulaDef :=
  mkFormula "SyncIssues" "Sync issues from a GitHub repository."
    [ RepoUrlParameter; IssueStateOptional ].

Definition UpdateIssue : FormulaDef :=
  mkFormula "UpdateIssue" "Update an issue on GitHub."
    [ RepoUrlParameter; IssueNumberParameter; IssueTitleParameter;
      IssueBodyParameter; IssueStateParameter ].

Definition CreateIssue : FormulaDef :=
  mkFormula "CreateIssue" "Create a new issue on GitHub."
    [ RepoUrlParameter; TitleParameter; BodyParameter; LabelsParameter;
      AssigneesParameter ].

(** The declaration of the parameter called [n], if the formula has one. *)
Definition find_param (f : FormulaDef) (n : string) : option ParamDef :=
  find (fun p => String.eqb (param_name p) n) (formula_parameters f).

Definition required_names (f : FormulaDef) : list string :=
  map param_name (filter is_required (formula_parameters f)).

Definition optional_names (f : FormulaDef) : list string :=
  map param_name (filter is_optional (formula_parameters f)).

(** The parameter type is one of the list types. *)
Definition is_array_type (t : ParameterType) : bool :=
  match t with
  | PStringArray | PNumberArray | PBooleanArray | PDateArray => true
  | _ => false
  end.

(* ===================================================================== *)
(** ** The helper layer ([helpers.ts])

    The sync formulas of [pack.ts] only delegate:
    [execute: (params, context) => helpers.getPullRequests(params, context)]
    and likewise [helpers.getIssues].  [helpers.ts] is not part of the
    sources; its components are modelled from the specification. *)
(* ===================================================================== *)

Record RepositoryReference : Type := mkRef {
  owner : string;
  repo_name : string
}.

Module RepoResolver.

(** The scheme prefix of a repository URL, if it has one of the two
    accepted schemes, and what follows it. *)
Definition strip_scheme (url : string) : option string :=
  if Js.startsWith url "https://"
  then Some (substring 8 (String.length url - 8) url)
  else if Js.startsWith url "http://"
  then Some (substring 7 (String.length url - 7) url)
  else None.

Definition check (host o n : string) : ErrorKind + RepositoryReference :=
  if String.eqb host HOST && Js.truthy_string o && Js.truthy_string n
  then inr (mkRef o n)
  else inl InvalidReferenceError.

(** Modelled from the spec: [resolve] of RepoResolver (4.1), which lives
    in [helpers.ts].  The URL has the shape scheme://host/owner/name,
    the scheme being http or https, with an optional trailing slash;
    anything else is an [InvalidReferenceError]. *)
Definition resolve (url : string) : ErrorKind + RepositoryReference :=
  match strip_scheme url with
  | None => inl InvalidReferenceError
  | Some rest =>
      match Js.split "/" rest with
      | [host; o; n] => check host o n
      | [host; o; n; EmptyString] => check host o n
      | _ => inl InvalidReferenceError
      end
  end.

End RepoResolver.

(** The filters of a sync: the optional parameters [base] and [state]. *)
Record FilterSet : Type := mkFilters {
  base : option string;
  state : option PullRequestStateFilter
}.

Inductive ResourceKind : Type :=
| Repos
| PullRequests
| Issues
| OtherKind (k : string).

(** A continuation token of the sync engine: the URL of the next page. *)
Definition ContinuationToken : Type := string.

Record HttpRequestSpec : Type := mkRequest {
  method : string;
  url : string;
  query : list (string * string)
}.

(** The value of the query parameter [key] of a request, if it has it. *)
Definition query_param (key : string) (req : HttpRequestSpec) : option string :=
  option_map snd (find (fun kv => String.eqb (fst kv) key) (query req)).

Module RequestBuilder.

Definition supported (kind : ResourceKind) : bool :=
  match kind with
  | OtherKind _ => false
  | _ => true
  end.

(** The query parameters of a first request: the state, open unless
    given, and the base branch when given. *)
Definition filter_query (filters : FilterSet) : list (string * string) :=
  ("state", state_value (match state filters with
                         | Some s => s
                         | None => Open
                         end))
  :: match base filters with
     | Some b => [("base", b)]
     | None => []
     end.

(** The request a token stands for: the token is the whole request. *)
Definition of_token (t : ContinuationToken) : HttpRequestSpec :=
  mkRequest "GET" t [].

Section Build.

(** The list endpoint of a resource of a repository; the spec leaves
    the paths to the service. *)
Variable list_endpoint : ResourceKind -> RepositoryReference -> string.

(** Modelled from the spec: [build] of RequestBuilder (4.2), which
    lives in [helpers.ts]. *)
Definition build (kind : ResourceKind) (repo : RepositoryReference)
    (filters : FilterSet) (cont : option ContinuationToken)
  : ErrorKind + HttpRequestSpec :=
  if supported kind then
    match cont with
    | None =>
        inr (mkRequest "GET" (list_endpoint kind repo)
                       (filter_query filters))
    | Some t => inr (of_token t)
    end
  else inl UnsupportedResourceError.

End Build.

End RequestBuilder.

(** [PageResult<T>]: a page and the token of the next one. *)
Record PageResult (T : Type) : Type := mkPage {
  records : list T;
  next : option ContinuationToken
}.
Arguments mkPage {T} records next.
Arguments records {T} p.
Arguments next {T} p.

(** The raw object of the service, as far as the mapper reads it. *)
Record RemoteRecord : Type := mkRecord {
  rec_id : option Z;
  rec_number : option Z;
  rec_url : option string;
  rec_title : option string;
  rec_author : option string;
  rec_labels : option (list string);
  rec_assignee : option string;
  rec_base : option string;
  rec_head : option string
}.

Record Row : Type := mkRow {
  row_id : Z;
  row_number : option Z;
  row_url : string;
  row_title : option string;
  row_author : option string;
  row_labels : list string;
  row_assignee : option string;
  row_base : option string;
  row_head : option string
}.




Module ResponseMapper.

(** Pull requests and issues are numbered, repositories are not. *)
Definition numbered (kind : ResourceKind) : bool :=
  match kind with
  | PullRequests | Issues => true
  | _ => false
  end.

(** Modelled from the spec: [map] of ResponseMapper (4.4), which lives
    in [helpers.ts].  The identifying fields are copied as they are and
    a record without one is malformed; absent optional fields give
    empty or absent row fields. *)
Definition map (kind : ResourceKind) (r : RemoteRecord) : ErrorKind + Row :=
  match rec_id r, rec_url r with
  | Some i, Some u =>
      match rec_number r with
      | None =>
          if numbered kind then inl MalformedResponseError
          else inr (mkRow i None u (rec_title r) (rec_author r)
                          (match rec_labels r with Some l => l | None => [] end)
                          (rec_assignee r) (rec_base r) (rec_head r))
      | Some n =>
          inr (mkRow i (Some n) u (rec_title r) (rec_author r)
                     (match rec_labels r with Some l => l | None => [] end)
                     (rec_assignee r) (rec_base r) (rec_head r))
      end
  | _, _ => inl MalformedResponseError
  end.

(** Maps a page, failing at its first malformed record. *)
Fixpoint map_all (kind : ResourceKind) (rs : list RemoteRecord)
  : ErrorKind + list Row :=
  match rs with
  | [] => inr []
  | r :: rs' =>
      match map kind r with
      | inl e => inl e
      | inr row =>
          match map_all kind rs' with
          | inl e => inl e
          | inr rows => inr (row :: rows)
          end
      end
  end.


End ResponseMapper.

(** The parameters of a sync formula. *)
Record SyncParams : Type := mkParams {
  repoUrl : string;
  filters : FilterSet
}.

(** What a step returns to the host. *)
Record StepResult : Type := mkStep {
  rows : list Row;
  step_continuation : option ContinuationToken
}.

Section SyncStep.

Variable list_endpoint : ResourceKind -> RepositoryReference -> string.

(** PageFetcher (4.3): one request to the service, which answers with a
    page or fails. *)
Variable fetch : HttpRequestSpec -> ErrorKind + PageResult RemoteRecord.

(** The request of a step: in the initial state the repository is
    resolved and the filtered first request built; in the continuing
    state the request comes from the token alone. *)
Definition step_request (kind : ResourceKind) (params : SyncParams)
    (priorContinuation : option ContinuationToken)
  : ErrorKind + HttpRequestSpec :=
  match priorContinuation with
  | None =>
      match RepoResolver.resolve (repoUrl params) with
      | inl e => inl e
      | inr repo =>
          RequestBuilder.build list_endpoint kind repo (filters params) None
      end
  | Some t =>
      if RequestBuilder.supported kind
      then inr (RequestBuilder.of_token t)
      else inl UnsupportedResourceError
  end.

(** Modelled from the spec: [step] of SyncStep (4.5), which is what
    [helpers.getPullRequests] and [helpers.getIssues] of [helpers.ts]
    implement: build the request, fetch the page, map its records. *)
Definition step (kind : ResourceKind) (params : SyncParams)
    (priorContinuation : option ContinuationToken)
  : ErrorKind + StepResult :=
  match step_request kind params priorContinuation with
  | inl e => inl e
  | inr req =>
      match fetch req with
      | inl e => inl e
      | inr page =>
          match ResponseMapper.map_all kind (records page) with
          | inl e => inl e
          | inr rs => inr (mkStep rs (next page))
          end
      end
  end.

(** The host: calls [step] first without a continuation, then with the
    one the previous call returned, until a call returns none; one call
    per unit of fuel. *)
Fixpoint run_sync (fuel : nat) (kind : ResourceKind) (params : SyncParams)
    (prior : option ContinuationToken) (acc : list Row)
  : Outcome (list Row) :=
  match fuel with
  | O => Pending
  | S fuel' =>
      match step kind params prior with
      | inl e => Rejected e
      | inr r =>
          match step_continuation r with
          | None => Resolved (acc ++ rows r)
          | Some t => run_sync fuel' kind params (Some t) (acc ++ rows r)
          end
      end
  end.


End SyncStep.

(* ===================================================================== *)
(** ** Reading the loop condition and the claim of exhaustion *)
(* ===================================================================== *)

(** A property value JavaScript treats as false: [undefined], the empty
    string, zero. *)
Definition falsy_value (v : option ContinuationValue) : Prop :=
  v = None \/ v = Some (CStr "") \/ v = Some (CNum 0%Z).

(** The continuation is null or undefined, or it is an object whose
    [nextUrl] is absent or falsy. *)
Definition lacks_nextUrl (k : option Continuation) : Prop :=
  k = None \/ exists c, k = Some c /\ falsy_value (get_property "nextUrl" c).

(** A path segment: not empty, without a slash. *)
Definition segment (s : string) : Prop :=
  s <> "" /\ Js.has_char "/" s = false.

(** [url] is scheme://host/owner/name for the reference [r], the scheme
    being https or http, with or without a trailing slash. *)
Definition valid_repo_url (url : string) (r : RepositoryReference) : Prop :=
  exists scheme trailing,
    (scheme = "https://" \/ scheme = "http://")
    /\ (trailing = "" \/ trailing = "/")
    /\ segment (owner r) /\ segment (repo_name r)
    /\ url = (scheme ++ HOST ++ "/" ++ owner r ++ "/" ++ repo_name r
              ++ trailing)%string.

(** [Array.prototype.join]. *)
Fixpoint join (sep : string) (l : list string) : string :=
  match l with
  | [] => ""
  | [w] => w
  | w :: l' => w ++ sep ++ join sep l'
  end.

Section Exhaustion.

Variable Context : Type.
Variable getRepos :
  Context -> option Continuation -> (ErrorKind + ReposResponse) * Context.

(** The pages of the service up to the first one that returns no
    continuation at all: what looping until the returned continuation
    is null would fetch. *)
Inductive exhausts
  : Context -> option Continuation -> list ReposResponse -> Context -> Prop :=
| exhausts_last : forall context c r context',
    getRepos context c = (inr r, context') ->
    continuation r = None ->
    exhausts context c [r] context'
| exhausts_next : forall context c r k context' rs context'',
    getRepos context c = (inr r, context') ->
    continuation r = Some k ->
    exhausts context' (Some k) rs context'' ->
    exhausts context c (r :: rs) context''.

(** The aggregation stops only at a null continuation: whenever it
    resolves, it has collected the pages up to the first null one. *)
Definition loops_until_null (context : Context) : Prop :=
  forall fuel results context' trace,
    collect getRepos fuel context = (Resolved results, context', trace) ->
    exists rs,
      exhausts context None rs context' /\ results = records_of rs.

End Exhaustion.

Arguments exhausts {Context} getRepos _ _ _ _.
Arguments loops_until_null {Context} getRepos context.

(* ===================================================================== *)
(** ** Sample services *)
(* ===================================================================== *)

Module Samples.

(** The case mapping used in the sample runs, whose names and search
    texts are made of ASCII characters: on such strings [toLowerCase]
    lowers the letters A to Z and leaves every other character. *)
Definition ascii_lower_char (c : ascii) : ascii :=
  let n := nat_of_ascii c in
  if ((65 <=? n) && (n <=? 90))%nat then ascii_of_nat (n + 32) else c.

Fixpoint ascii_lower (s : string) : string :=
  match s with
  | EmptyString => EmptyString
  | String c s' => String (ascii_lower_char c) (ascii_lower s')
  end.

Definition widgets : GitHubRepo :=
  mkRepo 1 "Widgets" "https://github.com/acme/widgets".
Definition gadgets : GitHubRepo :=
  mkRepo 2 "gadgets" "https://github.com/acme/gadgets".
Definition midget_tools : GitHubRepo :=
  mkRepo 3 "MIDGET-tools" "https://github.com/acme/MIDGET-tools".

Definition page2 : Continuation :=
  [("nextUrl", CStr "https://github.com/api/v4/user/repos?page=2")].
Definition page3 : Continuation :=
  [("nextUrl", CStr "https://github.com/api/v4/user/repos?page=3")].

(** A service with three pages of repositories, the second one empty;
    it ignores its state. *)
Definition three_pages (context : unit) (c : option Continuation)
  : (ErrorKind + ReposResponse) * unit :=
  match c with
  | None => (inr (mkResponse [widgets; gadgets] (Some page2)), tt)
  | Some [("nextUrl", CStr u)] =>
      if String.eqb u "https://github.com/api/v4/user/repos?page=2"
      then (inr (mkResponse [] (Some page3)), tt)
      else (inr (mkResponse [midget_tools] None), tt)
  | Some _ => (inl MalformedResponseError, tt)
  end.

(** A service whose continuation is a cursor: an object without
    [nextUrl]. *)
Definition cursor2 : Continuation := [("cursor", CStr "2")].

Definition cursor_service (context : unit) (c : option Continuation)
  : (ErrorKind + ReposResponse) * unit :=
  match c with
  | None => (inr (mkResponse [widgets] (Some cursor2)), tt)
  | Some _ => (inr (mkResponse [gadgets] None), tt)
  end.

(** A service that rejects the request for its second page; its state
    counts the requests it has served. *)
Definition rate_limited (context : nat) (c : option Continuation)
  : (ErrorKind + ReposResponse) * nat :=
  match c with
  | None => (inr (mkResponse [widgets; gadgets] (Some page2)), S context)
  | Some _ => (inl (RemoteRejectedError 403 "rate limit exceeded"), S context)
  end.

(** A service whose first page carries a continuation with an empty
    [nextUrl]. *)
Definition blank_next (context : unit) (c : option Continuation)
  : (ErrorKind + ReposResponse) * unit :=
  match c with
  | None => (inr (mkResponse [widgets] (Some [("nextUrl", CStr "")])), tt)
  | Some _ => (inr (mkResponse [gadgets] None), tt)
  end.

(** A service with a single empty page. *)
Definition no_repos (context : unit) (c : option Continuation)
  : (ErrorKind + ReposResponse) * unit :=
  (inr (mkResponse [] None), tt).

(** The list endpoints of a GitHub-like service. *)
Definition list_endpoint (kind : ResourceKind) (repo : RepositoryReference)
  : string :=
  match kind with
  | Repos => API_ENDPOINT ++ "/user/repos"
  | PullRequests =>
      API_ENDPOINT ++ "/repos/" ++ owner repo ++ "/" ++ repo_name repo
      ++ "/pulls"
  | Issues =>
      API_ENDPOINT ++ "/repos/" ++ owner repo ++ "/" ++ repo_name repo
      ++ "/issues"
  | OtherKind k => API_ENDPOINT ++ "/" ++ k
  end.

Definition issue (n : Z) (title : string) : RemoteRecord :=
  mkRecord (Some (100 + n)%Z) (Some n)
    (Some "https://github.com/acme/widgets/issues") (Some title)
    (Some "ann") None None None None.

Definition issues_page2 : ContinuationToken :=
  "https://github.com/api/v4/repos/acme/widgets/issues?state=open&page=2".

(** A service holding three open issues of acme/widgets, two per page. *)
Definition issue_service (req : HttpRequestSpec)
  : ErrorKind + PageResult RemoteRecord :=
  if String.eqb (url req)
       "https://github.com/api/v4/repos/acme/widgets/issues"
  then match query_param "state" req with
       | Some "open" =>
           inr (mkPage [issue 1 "Crash"; issue 2 "Typo"] (Some issues_page2))
       | _ => inr (mkPage [] None)
       end
  else if String.eqb (url req) issues_page2
  then inr (mkPage [issue 3 "Docs"] None)
  else inl (RemoteRejectedError 404 "Not Found").

Definition widgets_params : SyncParams :=
  mkParams "https://github.com/acme/widgets" (mkFilters None (Some Open)).

(** A service with nothing to return. *)
Definition empty_service (req : HttpRequestSpec)
  : ErrorKind + PageResult RemoteRecord :=
  inr (mkPage [] None).

End Samples.

(* ===================================================================== *)
(** ** What the pack registers *)
(* ===================================================================== *)

(** The domains given to [pack.addNetworkDomain]. *)
Definition network_domains : list string := [HOST].

(** [coda.AuthenticationType], as far as packs of this kind use it. *)
Inductive AuthenticationType : Type :=
| NoAuthentication | HeaderBearerToken | OAuth2.

(** The object given to [pack.setUserAuthentication];
    [getConnectionName] belongs to the helper layer and is left out. *)
Record AuthenticationDef : Type := mkAuth {
  auth_type : AuthenticationType;
  authorizationUrl : string;
  tokenUrl : string;
  tokenPrefix : string;
  scopes : list string
}.

Definition user_authentication : AuthenticationDef :=
  mkAuth OAuth2
    "https://github.com/login/oauth/authorize"
    "https://github.com/login/oauth/access_token"
    "token"
    ["read:user"; "repo"].

(** The object given to [pack.addSyncTable]; the schema is kept by its
    name in [schemas]. *)
Record SyncTableDef : Type := mkSyncTable {
  table_name : string;
  identityName : string;
  table_schema : string;
  table_formula : FormulaDef
}.

Definition PullRequestsTable : SyncTableDef :=
  mkSyncTable "PullRequests" "PullRequest" "PullRequestSchema"
    PullRequestsFormula.

Definition IssuesTable : SyncTableDef :=
  mkSyncTable "Issues" "Issue" "IssueSchema" SyncIssuesFormula.

(** The sync tables and the action formulas, in the order the file adds
    them. *)
Definition sync_tables : list SyncTableDef :=
  [PullRequestsTable; IssuesTable].

Definition action_formulas : list FormulaDef :=
  [UpdateIssue; CreateIssue].

Definition pack_formulas : list FormulaDef :=
  map table_formula sync_tables ++ action_formulas.

(** The URLs the file itself spells out: the API endpoint and the two
    OAuth URLs. *)
Definition declared_urls : list string :=
  [API_ENDPOINT; authorizationUrl user_authentication;
   tokenUrl user_authentication].

(** The host of an https URL: what stands between the scheme and the
    first slash. *)
Definition https_host (u : string) : option string :=
  if Js.startsWith u "https://"
  then hd_error (Js.split "/" (substring 8 (String.length u - 8) u))
  else None.

(** A service that never runs out of pages: every answer carries a
    continuation with a next URL; its state counts the requests. *)
Definition endless_service (context : nat) (c : option Continuation)
  : (ErrorKind + ReposResponse) * nat :=
  (inr (mkResponse [Samples.widgets] (Some Samples.page2)), S context).

(** A service with two pages of repositories, the first pointing to the
    second by its [nextUrl]. *)
Definition two_page_service (context : unit) (c : option Continuation)
  : (ErrorKind + ReposResponse) * unit :=
  match c with
  | None => (inr (mkResponse [Samples.widgets] (Some Samples.page2)), tt)
  | Some _ => (inr (mkResponse [Samples.gadgets] None), tt)
  end.

(* ===================================================================== *)
(** ** Strings *)
(* ===================================================================== *)

Lemma startsWith_app (p s : string) : Js.startsWith (p ++ s)%string p = true.
Proof.
  induction p as [|a p IH]; simpl.
  - destruct s; reflexivity.
  - now rewrite Ascii.eqb_refl, IH.
Qed.

Lemma startsWith_inv (s p : string) :
  Js.startsWith s p = true -> exists suf, s = (p ++ suf)%string.
Proof.
  revert s; induction p as [|a p IH]; intros s H.
  - exists s. reflexivity.
  - destruct s as [|b s]; simpl in H; [discriminate|].
    apply andb_true_iff in H as [Hab Hs].
    apply Ascii.eqb_eq in Hab; subst b.
    destruct (IH _ Hs) as [suf ->].
    exists suf. reflexivity.
Qed.

Lemma startsWith_spec (s p : string) :
  Js.startsWith s p = true <-> exists suf, s = (p ++ suf)%string.
Proof.
  split; [apply startsWith_inv|].
  intros [suf ->]. apply startsWith_app.
Qed.



(* ===================================================================== *)
(** ** The aggregation loop *)
(* ===================================================================== *)

Lemma falsy_value_iff (v : option ContinuationValue) :
  truthy v = false <-> falsy_value v.
Proof.
  unfold falsy_value, truthy, Js.truthy_string.
  destruct v as [[s|n|f]|]; split; intros H; auto.
  - apply negb_false_iff, String.eqb_eq in H. subst. auto.
  - destruct H as [H|[H|H]]; try discriminate. now inversion H.
  - apply negb_false_iff, Z.eqb_eq in H. subst. auto.
  - destruct H as [H|[H|H]]; try discriminate. now inversion H.
  - discriminate.
  - destruct H as [H|[H|H]]; discriminate.
Qed.

(** The loop goes on exactly when the continuation is an object with a
    truthy [nextUrl]. *)
Lemma loop_condition_false_iff (k : option Continuation) :
  loop_condition k = false <-> lacks_nextUrl k.
Proof.
  unfold lacks_nextUrl. destruct k as [c|]; simpl.
  - rewrite falsy_value_iff. split.
    + intros H. right. now exists c.
    + intros [H|(c' & Hc & H)]; [discriminate|]. now inversion Hc; subst.
  - split; auto.
Qed.

Section AutocompleteFacts.

Variable Context : Type.
Variable getRepos :
  Context -> option Continuation -> (ErrorKind + ReposResponse) * Context.

Lemma pages_from_nonempty context c rs context' :
  pages_from getRepos context c rs context' -> rs <> [].
Proof. destruct 1; discriminate. Qed.

Lemma requests_of_cons c r rs :
  rs <> [] ->
  requests_of c (r :: rs) = c :: requests_of (continuation r) rs.
Proof.
  unfold requests_of. destruct rs as [|r' rs]; [congruence|reflexivity].
Qed.

Lemma removelast_length {A : Type} (x : A) (l : list A) :
  length (removelast (x :: l)) = length l.
Proof.
  revert x. induction l as [|y l IH]; intros x; [reflexivity|].
  change (removelast (x :: y :: l)) with (x :: removelast (y :: l)).
  cbn [length]. f_equal. apply IH.
Qed.

Lemma requests_of_length c rs :
  rs <> [] -> length (requests_of c rs) = length rs.
Proof.
  intros H. unfold requests_of. simpl. rewrite length_map.
  destruct rs as [|r rs]; [congruence|].
  now rewrite removelast_length.
Qed.

(** A complete run of the service is what the loop collects, given the
    iterations to go through it. *)
Lemma do_while_pages context c rs context' :
  pages_from getRepos context c rs context' ->
  forall fuel acc trace,
    length rs <= fuel ->
    do_while getRepos fuel context acc c trace
    = (Resolved (acc ++ records_of rs), context', trace ++ requests_of c rs).
Proof.
  induction 1 as [context c r context' Hget Hstop
                 |context c r context' rs context'' Hget Hgo Hrun IH];
    intros fuel acc trace Hfuel;
    (destruct fuel as [|fuel]; [simpl in Hfuel; lia|]);
    simpl do_while; rewrite Hget.
  - rewrite Hstop. unfold records_of, requests_of. simpl.
    now rewrite app_nil_r.
  - rewrite Hgo. rewrite IH by (simpl in Hfuel; lia).
    rewrite requests_of_cons by eauto using pages_from_nonempty.
    unfold records_of. simpl. now rewrite <- !app_assoc.
Qed.

(** A run that fails is a rejection, with the calls made up to it. *)
Lemma do_while_fail context c rs e context' :
  pages_fail getRepos context c rs e context' ->
  forall fuel acc trace,
    length rs < fuel ->
    do_while getRepos fuel context acc c trace
    = (Rejected e, context', trace ++ c :: map continuation rs).
Proof.
  induction 1 as [context c e context' Hget
                 |context c r context' rs e context'' Hget Hgo Hrun IH];
    intros fuel acc trace Hfuel;
    (destruct fuel as [|fuel]; [simpl in Hfuel; lia|]);
    simpl do_while; rewrite Hget.
  - reflexivity.
  - rewrite Hgo. rewrite IH by (simpl in Hfuel; lia).
    simpl. now rewrite <- app_assoc.
Qed.

(** Short of iterations, a failing run is still pending. *)
Lemma do_while_fail_pending context c rs e context' :
  pages_fail getRepos context c rs e context' ->
  forall fuel acc trace,
    fuel <= length rs ->
    fst (fst (do_while getRepos fuel context acc c trace)) = Pending.
Proof.
  induction 1 as [context c e context' Hget
                 |context c r context' rs e context'' Hget Hgo Hrun IH];
    intros fuel acc trace Hfuel;
    (destruct fuel as [|fuel]; [reflexivity|]); simpl in Hfuel; [lia|].
  simpl do_while. rewrite Hget, Hgo. apply IH. lia.
Qed.

(** The runs of a service are determined by where they start. *)
Lemma exhausts_unique context c rs1 context1 :
  exhausts getRepos context c rs1 context1 ->
  forall rs2 context2,
    exhausts getRepos context c rs2 context2 ->
    rs1 = rs2 /\ context1 = context2.
Proof.
  induction 1 as [context c r context' Hget Hnone
                 |context c r k context' rs context'' Hget Hsome Hrun IH];
    intros rs2 context2 H2; inversion H2; subst;
    match goal with
    | H : getRepos _ _ = _, H' : getRepos _ _ = _ |- _ =>
        rewrite H in H'; inversion H'; subst
    end; try congruence.
  - auto.
  - match goal with
    | H : continuation _ = Some ?k1, H' : continuation _ = Some ?k2 |- _ =>
        rewrite H in H'; inversion H'; subst
    end.
    destruct (IH _ _ ltac:(eassumption)) as [-> ->]. auto.
Qed.

End AutocompleteFacts.

(* ===================================================================== *)
(** ** Properties of [RepoUrlParameter.autocomplete] *)
(* ===================================================================== *)

(** C3, as stated: the aggregation would loop until the returned
    continuation is null.  It does not: on a service whose continuation
    is a cursor object without [nextUrl], the loop stops after the first
    page although a continuation was returned and a second page exists. *)
Lemma autocomplete_stops_at_cursor_continuation :
  collect Samples.cursor_service 2 tt
  = (Resolved [Samples.widgets], tt, [None])
  /\ exhausts Samples.cursor_service tt None
       [mkResponse [Samples.widgets] (Some Samples.cursor2);
        mkResponse [Samples.gadgets] None] tt
  /\ ~ loops_until_null Samples.cursor_service tt.
Proof.
  assert (Hex : exhausts Samples.cursor_service tt None
                  [mkResponse [Samples.widgets] (Some Samples.cursor2);
                   mkResponse [Samples.gadgets] None] tt).
  { eapply exhausts_next; [reflexivity|reflexivity|].
    apply exhausts_last; reflexivity. }
  split; [reflexivity|]. split; [exact Hex|].
  intros H.
  destruct (H 2 [Samples.widgets] tt [None] eq_refl) as (rs & Hrs & Heq).
  destruct (exhausts_unique _ _ _ _ _ _ Hrs _ _ Hex) as [-> _].
  discriminate Heq.
Qed.

(** C3, amended: within one call the aggregation fetches the pages of
    the service one after the other, each with the continuation the
    previous page returned, until a page returns a continuation that is
    null or has no truthy [nextUrl]; it accumulates the records of these
    pages in page order, and only the complete accumulation is filtered
    by the search text. *)
Theorem autocomplete_collects_pages_in_order
    (Context : Type)
    (getRepos : Context -> option Continuation
                -> (ErrorKind + ReposResponse) * Context)
    (toLowerCase : string -> string)
    (context context' : Context) (rs : list ReposResponse)
    (fuel : nat) (search : string) :
  pages_from getRepos context None rs context' ->
  length rs <= fuel ->
  collect getRepos fuel context
  = (Resolved (records_of rs), context', requests_of None rs)
  /\ autocomplete getRepos toLowerCase fuel context search
     = Resolved (autocompleteSearchObjects toLowerCase search (records_of rs)
                                         name html_url).
Proof.
  intros Hrun Hfuel.
  assert (Hc : collect getRepos fuel context
               = (Resolved (records_of rs), context', requests_of None rs)).
  { unfold collect. now rewrite (do_while_pages _ _ _ _ _ _ Hrun). }
  split; [exact Hc|].
  unfold autocomplete. now rewrite Hc.
Qed.

Lemma three_pages_run :
  pages_from Samples.three_pages tt None
    [mkResponse [Samples.widgets; Samples.gadgets] (Some Samples.page2);
     mkResponse [] (Some Samples.page3);
     mkResponse [Samples.midget_tools] None] tt.
Proof.
  eapply pages_next; [reflexivity|reflexivity|].
  eapply pages_next; [reflexivity|reflexivity|].
  apply pages_last; reflexivity.
Qed.

Lemma autocomplete_collects_pages_in_order_witness :
  collect Samples.three_pages 3 tt
  = (Resolved [Samples.widgets; Samples.gadgets; Samples.midget_tools], tt,
     [None; Some Samples.page2; Some Samples.page3])
  /\ autocomplete Samples.three_pages Samples.ascii_lower 3 tt "idget"
     = Resolved [mkEntry "Widgets" "https://github.com/acme/widgets";
                 mkEntry "MIDGET-tools" "https://github.com/acme/MIDGET-tools"].
Proof.
  apply (autocomplete_collects_pages_in_order unit Samples.three_pages
           Samples.ascii_lower tt tt
           _ 3 "idget" three_pages_run).
  simpl. lia.
Defined.



(** C7: when a page fetch fails, the search fails with the error of that
    fetch; it never resolves, so the records accumulated so far are not
    returned. *)
Theorem autocomplete_propagates_fetch_error
    (Context : Type)
    (getRepos : Context -> option Continuation
                -> (ErrorKind + ReposResponse) * Context)
    (toLowerCase : string -> string)
    (context context' : Context) (rs : list ReposResponse) (e : ErrorKind)
    (search : string) :
  pages_fail getRepos context None rs e context' ->
  (forall fuel, length rs < fuel ->
     autocomplete getRepos toLowerCase fuel context search = Rejected e)
  /\ (forall fuel entries,
        autocomplete getRepos toLowerCase fuel context search <> Resolved entries).
Proof.
  intros Hrun.
  assert (Hrej : forall fuel, length rs < fuel ->
            autocomplete getRepos toLowerCase fuel context search = Rejected e).
  { intros fuel Hfuel. unfold autocomplete, collect.
    now rewrite (do_while_fail _ _ _ _ _ _ _ Hrun). }
  split; [exact Hrej|].
  intros fuel entries.
  destruct (Nat.lt_ge_cases (length rs) fuel) as [Hlt|Hge].
  - rewrite Hrej by assumption. discriminate.
  - unfold autocomplete, collect.
    pose proof (do_while_fail_pending _ _ _ _ _ _ _ Hrun fuel [] [] Hge) as Hp.
    destruct (do_while getRepos fuel context [] None []) as [[o c] t].
    simpl in Hp. subst o. discriminate.
Qed.

Lemma rate_limited_run :
  pages_fail Samples.rate_limited 0 None
    [mkResponse [Samples.widgets; Samples.gadgets] (Some Samples.page2)]
    (RemoteRejectedError 403 "rate limit exceeded") 2.
Proof.
  eapply fail_later; [reflexivity|reflexivity|].
  apply fail_here. reflexivity.
Qed.

Lemma autocomplete_propagates_fetch_error_witness :
  autocomplete Samples.rate_limited Samples.ascii_lower 5 0 "widgets"
  = Rejected (RemoteRejectedError 403 "rate limit exceeded")
  /\ autocomplete Samples.rate_limited Samples.ascii_lower 1 0 "widgets" <> Resolved [].
Proof.
  pose proof (autocomplete_propagates_fetch_error nat Samples.rate_limited
                Samples.ascii_lower 0 2
                _ _ "widgets" rate_limited_run) as [Hrej Hnot].
  split.
  - apply Hrej. simpl. lia.
  - apply Hnot.
Defined.

(** C9: the aggregation loop ends at a page whose continuation is null or
    undefined, and also at one whose continuation is an object with an
    absent or falsy [nextUrl]; so on every run of the service in which
    some page returns such a continuation the search makes finitely many
    fetches, one per page of the run. *)
Theorem autocomplete_terminates_without_nextUrl
    (Context : Type)
    (getRepos : Context -> option Continuation
                -> (ErrorKind + ReposResponse) * Context) :
  (forall context c r context' fuel acc trace,
      getRepos context c = (inr r, context') ->
      lacks_nextUrl (continuation r) ->
      do_while getRepos (S fuel) context acc c trace
      = (Resolved (acc ++ result r), context', trace ++ [c]))
  /\ (forall context rs context',
        pages_from getRepos context None rs context' ->
        forall fuel, length rs <= fuel ->
          exists results trace,
            collect getRepos fuel context = (Resolved results, context', trace)
            /\ length trace = length rs).
Proof.
  split.
  - intros context c r context' fuel acc trace Hget Hlack.
    apply loop_condition_false_iff in Hlack.
    simpl. now rewrite Hget, Hlack.
  - intros context rs context' Hrun fuel Hfuel.
    exists (records_of rs), (requests_of None rs). split.
    + unfold collect. now rewrite (do_while_pages _ _ _ _ _ _ Hrun).
    + apply requests_of_length. eauto using pages_from_nonempty.
Qed.

Lemma autocomplete_terminates_without_nextUrl_witness :
  do_while Samples.blank_next 1 tt [] None []
  = (Resolved [Samples.widgets], tt, [None])
  /\ exists results trace,
       collect Samples.three_pages 7 tt = (Resolved results, tt, trace)
       /\ length trace = 3.
Proof.
  split.
  - apply (proj1 (autocomplete_terminates_without_nextUrl unit
                    Samples.blank_next)
             tt None (mkResponse [Samples.widgets] (Some [("nextUrl", CStr "")]))
             tt 0 [] []).
    + reflexivity.
    + right. eexists. split; [reflexivity|]. right. left. reflexivity.
  - apply (proj2 (autocomplete_terminates_without_nextUrl unit
                    Samples.three_pages) tt _ tt three_pages_run 7).
    simpl. lia.
Defined.

(* ===================================================================== *)
(** ** The sync steps *)
(* ===================================================================== *)





Lemma build_supported list_endpoint kind repo f c req :
  RequestBuilder.build list_endpoint kind repo f c = inr req ->
  RequestBuilder.supported kind = true.
Proof.
  unfold RequestBuilder.build.
  destruct (RequestBuilder.supported kind); [reflexivity|discriminate].
Qed.


Lemma step_request_supported list_endpoint kind params prior req :
  step_request list_endpoint kind params prior = inr req ->
  RequestBuilder.supported kind = true.
Proof.
  destruct prior as [t|]; simpl.
  - destruct (RequestBuilder.supported kind); [reflexivity|discriminate].
  - destruct (RepoResolver.resolve (repoUrl params)); [discriminate|].
    eauto using build_supported.
Qed.

Section SyncFacts.

Variable list_endpoint : ResourceKind -> RepositoryReference -> string.
Variable fetch : HttpRequestSpec -> ErrorKind + PageResult RemoteRecord.



End SyncFacts.




(** C2: with a continuation token the request is built from the token
    alone: two filter sets give the same request, which is the token
    taken as the whole next request; and the continuation a step returns,
    fed to the next call, makes it build that same request whatever its
    parameters. *)
Theorem build_from_token_ignores_filters
    (list_endpoint : ResourceKind -> RepositoryReference -> string)
    (fetch : HttpRequestSpec -> ErrorKind + PageResult RemoteRecord)
    (kind : ResourceKind) (repo : RepositoryReference) :
  (forall (t : ContinuationToken) (f1 f2 : FilterSet),
      RequestBuilder.build list_endpoint kind repo f1 (Some t)
      = RequestBuilder.build list_endpoint kind repo f2 (Some t))
  /\ (forall params prior r t,
        step list_endpoint fetch kind params prior = inr r ->
        step_continuation r = Some t ->
        forall params' f,
          step_request list_endpoint kind params' (Some t)
          = inr (mkRequest "GET" t [])
          /\ RequestBuilder.build list_endpoint kind repo f (Some t)
             = inr (mkRequest "GET" t [])).
Proof.
  split; [reflexivity|].
  intros params prior r t Hstep _ params' f.
  assert (Hkind : RequestBuilder.supported kind = true).
  { unfold step in Hstep.
    destruct (step_request list_endpoint kind params prior) as [e|req] eqn:Hreq;
      [discriminate|].
    eauto using step_request_supported. }
  unfold step_request, RequestBuilder.build. now rewrite Hkind.
Qed.

Lemma build_from_token_ignores_filters_witness :
  step_request Samples.list_endpoint Issues
    (mkParams "not a repository" (mkFilters (Some "dev") (Some Closed)))
    (Some Samples.issues_page2)
  = inr (mkRequest "GET" Samples.issues_page2 [])
  /\ RequestBuilder.build Samples.list_endpoint Issues
       (mkRef "acme" "widgets") (mkFilters (Some "main") (Some All))
       (Some Samples.issues_page2)
     = inr (mkRequest "GET" Samples.issues_page2 []).
Proof.
  apply (proj2 (build_from_token_ignores_filters Samples.list_endpoint
                  Samples.issue_service Issues (mkRef "acme" "widgets"))
           Samples.widgets_params None
           (mkStep [mkRow 101 (Some 1%Z) "https://github.com/acme/widgets/issues"
                      (Some "Crash") (Some "ann") [] None None None;
                    mkRow 102 (Some 2%Z) "https://github.com/acme/widgets/issues"
                      (Some "Typo") (Some "ann") [] None None None]
                   (Some Samples.issues_page2))
           Samples.issues_page2).
  - reflexivity.
  - reflexivity.
Defined.

(** C5: on the first call of a sync, of pull requests or of issues, the
    request goes to the list endpoint of the repository and carries the
    filters as query parameters; the state is open when the parameter is
    not given. *)
Theorem first_request_encodes_filters
    (list_endpoint : ResourceKind -> RepositoryReference -> string)
    (kind : ResourceKind) (params : SyncParams) (repo : RepositoryReference) :
  kind = PullRequests \/ kind = Issues ->
  RepoResolver.resolve (repoUrl params) = inr repo ->
  exists req,
    step_request list_endpoint kind params None = inr req
    /\ RequestBuilder.build list_endpoint kind repo (filters params) None
       = inr req
    /\ url req = list_endpoint kind repo
    /\ query_param "state" req
       = Some (match state (filters params) with
               | Some s => state_value s
               | None => "open"
               end)
    /\ query_param "base" req = base (filters params).
Proof.
  intros Hkind Hrepo.
  eexists. split; [|split; [|split; [|split]]].
  - simpl. rewrite Hrepo. destruct Hkind; subst kind; reflexivity.
  - destruct Hkind; subst kind; reflexivity.
  - reflexivity.
  - unfold query_param. simpl. now destruct (state (filters params)).
  - unfold query_param. simpl. now destruct (base (filters params)).
Qed.

Lemma first_request_encodes_filters_witness :
  exists req,
    step_request Samples.list_endpoint PullRequests
      (mkParams "http://github.com/acme/widgets/" (mkFilters (Some "main") None))
      None = inr req
    /\ RequestBuilder.build Samples.list_endpoint PullRequests
         (mkRef "acme" "widgets") (mkFilters (Some "main") None) None
       = inr req
    /\ url req = "https://github.com/api/v4/repos/acme/widgets/pulls"
    /\ query_param "state" req = Some "open"
    /\ query_param "base" req = Some "main".
Proof.
  apply (first_request_encodes_filters Samples.list_endpoint PullRequests
           (mkParams "http://github.com/acme/widgets/"
                     (mkFilters (Some "main") None))
           (mkRef "acme" "widgets")).
  - left. reflexivity.
  - reflexivity.
Defined.

(** C8: a page with no records and no continuation is a terminal page.
    The aggregation loop resolves with what it had accumulated, and so
    does the sequence of sync steps; neither reports an error. *)
Theorem empty_last_page_terminates :
  (forall (Context : Type)
          (getRepos : Context -> option Continuation
                      -> (ErrorKind + ReposResponse) * Context)
          context c context' fuel acc trace,
      getRepos context c = (inr (mkResponse [] None), context') ->
      do_while getRepos (S fuel) context acc c trace
      = (Resolved acc, context', trace ++ [c]))
  /\ (forall list_endpoint fetch kind params prior req fuel acc,
        step_request list_endpoint kind params prior = inr req ->
        fetch req = inr (mkPage [] None) ->
        run_sync list_endpoint fetch (S fuel) kind params prior acc
        = Resolved acc).
Proof.
  split.
  - intros Context getRepos context c context' fuel acc trace Hget.
    simpl. rewrite Hget. simpl. now rewrite app_nil_r.
  - intros list_endpoint fetch kind params prior req fuel acc Hreq Hfetch.
    simpl. unfold step. rewrite Hreq, Hfetch. simpl. now rewrite app_nil_r.
Qed.

Lemma empty_last_page_terminates_witness :
  autocomplete Samples.no_repos Samples.ascii_lower 1 tt "widgets" = Resolved []
  /\ run_sync Samples.list_endpoint Samples.empty_service 1 Issues
       Samples.widgets_params None [] = Resolved [].
Proof.
  split.
  - unfold autocomplete, collect.
    now rewrite (proj1 empty_last_page_terminates unit Samples.no_repos
                   tt None tt 0 [] [] eq_refl).
  - exact (proj2 empty_last_page_terminates Samples.list_endpoint
             Samples.empty_service Issues Samples.widgets_params None
             (mkRequest "GET"
                "https://github.com/api/v4/repos/acme/widgets/issues"
                [("state", "open")])
             0 [] eq_refl eq_refl).
Defined.

(* ===================================================================== *)
(** ** The declared parameters *)
(* ===================================================================== *)

(** C10: [CreateIssue] requires [repoUrl] and [title]; [body], [labels]
    and [assignees] are optional, and [labels] and [assignees] are string
    parameters, not lists.  [UpdateIssue] requires [repoUrl] and
    [issueNumber]; [title], [body] and [state] are optional. *)
Theorem mutation_parameters :
  required_names CreateIssue = ["repoUrl"; "title"]
  /\ optional_names CreateIssue = ["body"; "labels"; "assignees"]
  /\ option_map param_type (find_param CreateIssue "labels") = Some PString
  /\ option_map param_type (find_param CreateIssue "assignees") = Some PString
  /\ existsb (fun p => is_array_type (param_type p))
             (formula_parameters CreateIssue) = false
  /\ required_names UpdateIssue = ["repoUrl"; "issueNumber"]
  /\ optional_names UpdateIssue = ["title"; "body"; "state"].
Proof.
  repeat split; reflexivity.
Qed.

(* ===================================================================== *)
(** ** Repository URLs *)
(* ===================================================================== *)

Lemma split_nonempty (sep : ascii) (s : string) : Js.split sep s <> [].
Proof.
  destruct s as [|c s]; simpl; [discriminate|].
  destruct (Ascii.eqb c sep); [discriminate|].
  destruct (Js.split sep s); discriminate.
Qed.

Lemma join_cons (sep w : string) (l : list string) :
  l <> [] -> join sep (w :: l) = (w ++ sep ++ join sep l)%string.
Proof. destruct l; [congruence|reflexivity]. Qed.

Lemma join_String (sep : string) (c : ascii) (w : string) (l : list string) :
  join sep (String c w :: l) = String c (join sep (w :: l)).
Proof. destruct l; reflexivity. Qed.

(** Splitting loses nothing: joining the pieces gives the string back. *)
Lemma split_join (sep : ascii) (s : string) :
  join (String sep "") (Js.split sep s) = s.
Proof.
  induction s as [|c s IH]; [reflexivity|].
  simpl. pose proof (split_nonempty sep s) as Hs.
  destruct (Ascii.eqb_spec c sep) as [->|Hne].
  - rewrite join_cons by assumption. simpl. now rewrite IH.
  - destruct (Js.split sep s) as [|w ws]; [congruence|].
    now rewrite join_String, IH.
Qed.

Lemma split_no_sep (sep : ascii) (s : string) :
  Forall (fun w => Js.has_char sep w = false) (Js.split sep s).
Proof.
  induction s as [|c s IH]; simpl.
  - repeat constructor.
  - destruct (Ascii.eqb_spec c sep) as [->|Hne].
    + constructor; [reflexivity|assumption].
    + pose proof (split_nonempty sep s) as Hs.
      destruct (Js.split sep s) as [|w ws]; [congruence|].
      inversion IH; subst. constructor; [|assumption].
      simpl. apply orb_false_iff. split; [|assumption].
      now apply Ascii.eqb_neq.
Qed.

Lemma split_single (sep : ascii) (a : string) :
  Js.has_char sep a = false -> Js.split sep a = [a].
Proof.
  induction a as [|c a IH]; [reflexivity|].
  simpl. intros H. apply orb_false_iff in H as [Hc Ha].
  rewrite Hc, (IH Ha). reflexivity.
Qed.

Lemma split_segment (sep : ascii) (a rest : string) :
  Js.has_char sep a = false ->
  Js.split sep (a ++ String sep rest) = a :: Js.split sep rest.
Proof.
  induction a as [|c a IH]; simpl.
  - intros _. now rewrite Ascii.eqb_refl.
  - intros H. apply orb_false_iff in H as [Hc Ha].
    rewrite Hc, (IH Ha). reflexivity.
Qed.

Lemma substring_all (s : string) : substring 0 (String.length s) s = s.
Proof. induction s as [|c s IH]; simpl; [reflexivity|now rewrite IH]. Qed.

Lemma truthy_string_iff (s : string) :
  Js.truthy_string s = true <-> s <> ""%string.
Proof.
  unfold Js.truthy_string. rewrite negb_true_iff. apply String.eqb_neq.
Qed.

Lemma strip_scheme_https (rest : string) :
  RepoResolver.strip_scheme ("https://" ++ rest) = Some rest.
Proof.
  unfold RepoResolver.strip_scheme.
  rewrite startsWith_app. simpl. f_equal.
  rewrite Nat.sub_0_r. apply substring_all.
Qed.

Lemma strip_scheme_http (rest : string) :
  RepoResolver.strip_scheme ("http://" ++ rest) = Some rest.
Proof.
  unfold RepoResolver.strip_scheme.
  replace (Js.startsWith ("http://" ++ rest) "https://") with false.
  - rewrite startsWith_app. simpl. f_equal.
    rewrite Nat.sub_0_r. apply substring_all.
  - simpl. destruct rest as [|c rest]; reflexivity.
Qed.

Lemma strip_scheme_inv (url rest : string) :
  RepoResolver.strip_scheme url = Some rest ->
  url = ("https://" ++ rest)%string \/ url = ("http://" ++ rest)%string.
Proof.
  unfold RepoResolver.strip_scheme.
  destruct (Js.startsWith url "https://") eqn:Hs.
  - apply startsWith_inv in Hs as [suf ->]. intros H. left.
    simpl in H. rewrite Nat.sub_0_r, substring_all in H. congruence.
  - destruct (Js.startsWith url "http://") eqn:Hp; [|discriminate].
    apply startsWith_inv in Hp as [suf ->]. intros H. right.
    simpl in H. rewrite Nat.sub_0_r, substring_all in H. congruence.
Qed.

Lemma check_inv (host o n : string) (r : RepositoryReference) :
  RepoResolver.check host o n = inr r ->
  host = HOST /\ o <> ""%string /\ n <> ""%string /\ r = mkRef o n.
Proof.
  unfold RepoResolver.check.
  destruct (String.eqb host HOST) eqn:Hh; [|discriminate].
  destruct (Js.truthy_string o) eqn:Ho; [|discriminate].
  destruct (Js.truthy_string n) eqn:Hn; [|discriminate].
  simpl. intros H. inversion H.
  apply String.eqb_eq in Hh. apply truthy_string_iff in Ho, Hn. auto.
Qed.

(** A well-formed repository URL resolves to its owner and name. *)
Lemma resolve_valid (url : string) (r : RepositoryReference) :
  valid_repo_url url r -> RepoResolver.resolve url = inr r.
Proof.
  intros (scheme & trailing & Hscheme & Htrail & [Ho Ho'] & [Hn Hn'] & ->).
  assert (Hsplit :
    Js.split "/" (HOST ++ "/" ++ owner r ++ "/" ++ repo_name r ++ trailing)
    = HOST :: owner r :: Js.split "/" (repo_name r ++ trailing)).
  { change (HOST ++ "/" ++ owner r ++ "/" ++ repo_name r ++ trailing)%string
      with (HOST ++ String "/" (owner r ++ String "/" (repo_name r ++ trailing)))%string.
    rewrite split_segment by reflexivity.
    now rewrite split_segment by assumption. }
  assert (Hcheck : RepoResolver.check HOST (owner r) (repo_name r) = inr r).
  { unfold RepoResolver.check.
    rewrite String.eqb_refl.
    rewrite (proj2 (truthy_string_iff _) Ho), (proj2 (truthy_string_iff _) Hn).
    destruct r; reflexivity. }
  unfold RepoResolver.resolve.
  replace (RepoResolver.strip_scheme
             (scheme ++ HOST ++ "/" ++ owner r ++ "/" ++ repo_name r ++ trailing))
    with (Some (HOST ++ "/" ++ owner r ++ "/" ++ repo_name r ++ trailing)%string)
    by (destruct Hscheme; subst scheme;
        [now rewrite strip_scheme_https|now rewrite strip_scheme_http]).
  rewrite Hsplit.
  destruct Htrail; subst trailing.
  - replace (repo_name r ++ "")%string with (repo_name r)
      by (clear; induction (repo_name r); simpl; congruence).
    rewrite split_single by assumption. exact Hcheck.
  - change (repo_name r ++ "/")%string
      with (repo_name r ++ String "/" "")%string.
    rewrite split_segment by assumption. simpl. exact Hcheck.
Qed.

(** What resolves is a well-formed repository URL. *)
Lemma resolve_inv (url : string) (r : RepositoryReference) :
  RepoResolver.resolve url = inr r -> valid_repo_url url r.
Proof.
  unfold RepoResolver.resolve.
  destruct (RepoResolver.strip_scheme url) as [rest|] eqn:Hstrip;
    [|discriminate].
  pose proof (split_join "/" rest) as Hjoin.
  pose proof (split_no_sep "/" rest) as Hsep.
  assert (Hscheme : exists scheme,
            (scheme = "https://" \/ scheme = "http://")%string
            /\ url = (scheme ++ rest)%string).
  { destruct (strip_scheme_inv _ _ Hstrip) as [->| ->]; eauto. }
  destruct Hscheme as (scheme & Hscheme & ->).
  clear Hstrip.
  remember (Js.split "/" rest) as parts eqn:Hparts. clear Hparts.
  subst rest.
  destruct parts as [|host [|o [|n [|e l]]]]; try discriminate.
  - intros H. apply check_inv in H as (-> & Ho & Hn & ->).
    inversion Hsep as [|? ? _ Hsep1]; subst.
    inversion Hsep1 as [|? ? Hso Hsep2]; subst.
    inversion Hsep2 as [|? ? Hsn _]; subst.
    exists scheme, ""%string. simpl owner. simpl repo_name.
    repeat split; auto.
    cbn [join].
    replace (n ++ "")%string with n
      by (clear; induction n; simpl; congruence).
    reflexivity.
  - destruct e; [|discriminate]. destruct l; [|discriminate].
    intros H. apply check_inv in H as (-> & Ho & Hn & ->).
    inversion Hsep as [|? ? _ Hsep1]; subst.
    inversion Hsep1 as [|? ? Hso Hsep2]; subst.
    inversion Hsep2 as [|? ? Hsn _]; subst.
    exists scheme, "/"%string. simpl owner. simpl repo_name.
    repeat split; auto.
Qed.

Lemma resolve_error (url : string) (e : ErrorKind) :
  RepoResolver.resolve url = inl e -> e = InvalidReferenceError.
Proof.
  unfold RepoResolver.resolve, RepoResolver.check.
  destruct (RepoResolver.strip_scheme url) as [rest|]; [|congruence].
  destruct (Js.split "/" rest) as [|host [|o [|n [|[|] [|]]]]];
    try congruence;
    destruct (String.eqb host HOST && Js.truthy_string o && Js.truthy_string n);
    congruence.
Qed.

(** C4: [resolve] is a function of the URL alone.  A URL of the form
    https://host/owner/name, also with http and with a trailing slash,
    resolves to exactly that owner and name; every other string, among
    them those short of two path segments, with an empty owner or name,
    or with another host, fails with [InvalidReferenceError]. *)
Theorem resolve_repo_url (url : string) :
  (forall r, valid_repo_url url r -> RepoResolver.resolve url = inr r)
  /\ ((~ exists r, valid_repo_url url r) ->
      RepoResolver.resolve url = inl InvalidReferenceError).
Proof.
  split; [apply resolve_valid|].
  intros Hnone.
  destruct (RepoResolver.resolve url) as [e|r] eqn:Hres.
  - now rewrite (resolve_error _ _ Hres).
  - exfalso. apply Hnone. exists r. now apply resolve_inv.
Qed.

Lemma resolve_repo_url_witness :
  RepoResolver.resolve "http://github.com/acme/widgets/"
  = inr (mkRef "acme" "widgets")
  /\ RepoResolver.resolve "https://github.com/acme"
     = inl InvalidReferenceError.
Proof.
  split.
  - apply (proj1 (resolve_repo_url "http://github.com/acme/widgets/")
             (mkRef "acme" "widgets")).
    exists "http://"%string, "/"%string.
    repeat split; try discriminate; auto.
  - apply (proj2 (resolve_repo_url "https://github.com/acme")).
    intros [r Hr]. apply resolve_valid in Hr. discriminate Hr.
Defined.

Example resolve_other_host :
  RepoResolver.resolve "https://gitlab.com/acme/widgets"
  = inl InvalidReferenceError.
Proof. reflexivity. Qed.

Example resolve_empty_owner :
  RepoResolver.resolve "https://github.com//widgets"
  = inl InvalidReferenceError.
Proof. reflexivity. Qed.

Example resolve_empty_name :
  RepoResolver.resolve "https://github.com/acme/"
  = inl InvalidReferenceError.
Proof. reflexivity. Qed.

Example resolve_no_scheme :
  RepoResolver.resolve "github.com/acme/widgets"
  = inl InvalidReferenceError.
Proof. reflexivity. Qed.

(* ===================================================================== *)
(** ** More on the aggregation loop *)
(* ===================================================================== *)

Section LoopFacts.

Variable Context : Type.
Variable getRepos :
  Context -> option Continuation -> (ErrorKind + ReposResponse) * Context.

(** The loop only adds to the calls made before it, and an iteration
    starts by calling with the continuation at hand. *)
Lemma do_while_trace_extends :
  forall fuel context acc c trace,
    exists more,
      snd (do_while getRepos (S fuel) context acc c trace)
      = trace ++ c :: more.
Proof.
  induction fuel as [|fuel IH]; intros context acc c trace.
  - simpl. destruct (getRepos context c) as [[e|r] context1];
      [exists []; reflexivity|].
    destruct (loop_condition (continuation r)); exists []; reflexivity.
  - cbn [do_while]. destruct (getRepos context c) as [[e|r] context1];
      [exists []; reflexivity|].
    destruct (loop_condition (continuation r)); [|exists []; reflexivity].
    destruct (IH context1 (acc ++ result r) (continuation r) (trace ++ [c]))
      as [more Hmore].
    cbn [do_while] in Hmore. rewrite Hmore.
    exists (continuation r :: more). now rewrite <- app_assoc.
Qed.

(** A loop that resolved went through a complete run of the service. *)
Lemma do_while_resolved_inv :
  forall fuel context acc c trace out context' trace',
    do_while getRepos fuel context acc c trace
    = (Resolved out, context', trace') ->
    exists rs,
      pages_from getRepos context c rs context'
      /\ out = acc ++ records_of rs
      /\ trace' = trace ++ requests_of c rs
      /\ length rs <= fuel.
Proof.
  induction fuel as [|fuel IH];
    intros context acc c trace out context' trace' H;
    [discriminate|].
  simpl in H.
  destruct (getRepos context c) as [[e|r] context1] eqn:Hget; [discriminate|].
  destruct (loop_condition (continuation r)) eqn:Hcond.
  - apply IH in H as (rs & Hrun & -> & -> & Hlen).
    exists (r :: rs). split; [eapply pages_next; eassumption|].
    rewrite requests_of_cons by (eapply pages_from_nonempty; eassumption).
    unfold records_of. simpl. rewrite <- !app_assoc. simpl.
    repeat split. lia.
  - inversion H; subst. exists [r].
    split; [now apply pages_last|].
    unfold records_of, requests_of. simpl. rewrite app_nil_r.
    repeat split. lia.
Qed.

(** A loop that was rejected went through a failing run. *)
Lemma do_while_rejected_inv :
  forall fuel context acc c trace e context' trace',
    do_while getRepos fuel context acc c trace
    = (Rejected e, context', trace') ->
    exists rs,
      pages_fail getRepos context c rs e context'
      /\ trace' = trace ++ c :: map continuation rs
      /\ length rs < fuel.
Proof.
  induction fuel as [|fuel IH];
    intros context acc c trace e context' trace' H;
    [discriminate|].
  simpl in H.
  destruct (getRepos context c) as [[e0|r] context1] eqn:Hget.
  - inversion H; subst. exists []. split; [now apply fail_here|].
    split; [reflexivity|simpl; lia].
  - destruct (loop_condition (continuation r)) eqn:Hcond; [|discriminate].
    apply IH in H as (rs & Hrun & -> & Hlen).
    exists (r :: rs). split; [eapply fail_later; eassumption|].
    rewrite <- app_assoc. simpl. split; [reflexivity|lia].
Qed.

(** On a service whose every answer asks for a next page the loop is
    still running after any number of iterations, one call each. *)
Lemma do_while_endless :
  (forall context c, exists r context',
      getRepos context c = (inr r, context')
      /\ loop_condition (continuation r) = true) ->
  forall fuel context acc c trace,
    fst (fst (do_while getRepos fuel context acc c trace)) = Pending
    /\ length (snd (do_while getRepos fuel context acc c trace))
       = length trace + fuel.
Proof.
  intros Hmore.
  induction fuel as [|fuel IH]; intros context acc c trace.
  - simpl. split; [reflexivity|lia].
  - simpl. destruct (Hmore context c) as (r & context1 & -> & ->).
    destruct (IH context1 (acc ++ result r) (continuation r) (trace ++ [c]))
      as [Hp Hlen].
    split; [assumption|]. rewrite Hlen, length_app. simpl. lia.
Qed.

End LoopFacts.

(** X1: whatever the service and the search text, the search makes at
    least one request for repositories, and the first one carries no
    continuation. *)
Theorem first_fetch_without_continuation
    (Context : Type)
    (getRepos : Context -> option Continuation
                -> (ErrorKind + ReposResponse) * Context)
    (fuel : nat) (context : Context) :
  exists more, snd (collect getRepos (S fuel) context) = None :: more.
Proof.
  unfold collect.
  destruct (do_while_trace_extends Context getRepos fuel context [] None [])
    as [more Hmore].
  exists more. exact Hmore.
Qed.

(** X2: whenever the aggregation resolves, it went through a complete
    run of the service: it made one request per page, each after the
    first with the continuation of the page before, the last page alone
    has no truthy [nextUrl], and the results are the records of these
    pages in page order, nothing more. *)
Theorem resolved_search_collected_a_run
    (Context : Type)
    (getRepos : Context -> option Continuation
                -> (ErrorKind + ReposResponse) * Context)
    (fuel : nat) (context context' : Context)
    (results : list GitHubRepo) (trace : Trace) :
  collect getRepos fuel context = (Resolved results, context', trace) ->
  exists rs,
    pages_from getRepos context None rs context'
    /\ results = records_of rs
    /\ trace = requests_of None rs
    /\ length trace = length rs
    /\ length rs <= fuel.
Proof.
  unfold collect. intros H.
  apply do_while_resolved_inv in H as (rs & Hrun & -> & -> & Hlen).
  exists rs. simpl. repeat split; try assumption.
  apply (requests_of_length None rs). eauto using pages_from_nonempty.
Qed.

Lemma resolved_search_collected_a_run_witness :
  exists rs,
    pages_from Samples.three_pages tt None rs tt
    /\ [Samples.widgets; Samples.gadgets; Samples.midget_tools]
       = records_of rs
    /\ [None; Some Samples.page2; Some Samples.page3] = requests_of None rs
    /\ 3 = length rs
    /\ length rs <= 4.
Proof.
  exact (resolved_search_collected_a_run unit Samples.three_pages 4 tt tt
           _ _ eq_refl).
Defined.

(** X3: the aggregation is rejected with an error exactly when the
    service fails with it after some pages that each asked for a next
    one; the failing request is the last one made, it is not repeated,
    and no request follows it. *)
Theorem rejected_search_iff_failing_run
    (Context : Type)
    (getRepos : Context -> option Continuation
                -> (ErrorKind + ReposResponse) * Context)
    (context context' : Context) (e : ErrorKind) (trace : Trace) :
  (exists fuel, collect getRepos fuel context = (Rejected e, context', trace))
  <-> (exists rs,
          pages_fail getRepos context None rs e context'
          /\ trace = None :: map continuation rs).
Proof.
  unfold collect. split.
  - intros [fuel H].
    apply do_while_rejected_inv in H as (rs & Hrun & -> & _).
    exists rs. split; [assumption|reflexivity].
  - intros (rs & Hrun & ->).
    exists (S (length rs)).
    now rewrite (do_while_fail _ _ _ _ _ _ _ Hrun) by lia.
Qed.

Lemma rejected_search_iff_failing_run_witness :
  exists fuel,
    collect Samples.rate_limited fuel 0
    = (Rejected (RemoteRejectedError 403 "rate limit exceeded"), 2,
       [None; Some Samples.page2]).
Proof.
  apply (proj2 (rejected_search_iff_failing_run nat Samples.rate_limited 0 2
                  (RemoteRejectedError 403 "rate limit exceeded")
                  [None; Some Samples.page2])).
  eexists. split; [exact rate_limited_run|reflexivity].
Defined.

(** X4: the loop has no bound on the number of pages.  On a service
    whose every answer carries a truthy [nextUrl] the search never
    settles: after any number of iterations it is still pending and has
    made that many requests. *)
Theorem endless_service_never_settles
    (Context : Type)
    (getRepos : Context -> option Continuation
                -> (ErrorKind + ReposResponse) * Context)
    (toLowerCase : string -> string)
    (fuel : nat) (context : Context) (search : string) :
  (forall context c, exists r context',
      getRepos context c = (inr r, context')
      /\ loop_condition (continuation r) = true) ->
  autocomplete getRepos toLowerCase fuel context search = Pending
  /\ length (snd (collect getRepos fuel context)) = fuel.
Proof.
  intros Hmore.
  destruct (do_while_endless Context getRepos Hmore fuel context [] None [])
    as [Hp Hlen].
  split; [|exact Hlen].
  unfold autocomplete, collect.
  destruct (do_while getRepos fuel context [] None []) as [[o c] t].
  simpl in Hp. now subst o.
Qed.

Lemma endless_service_never_settles_witness :
  autocomplete endless_service Samples.ascii_lower 50 0 "widgets" = Pending
  /\ length (snd (collect endless_service 50 0)) = 50.
Proof.
  apply (endless_service_never_settles nat endless_service
           Samples.ascii_lower 50 0 "widgets").
  intros context c. eexists. eexists. split; reflexivity.
Defined.

(* ===================================================================== *)
(** ** More on the declarations *)
(* ===================================================================== *)

(** X6: every formula of the pack, the two syncs and the two actions,
    takes the repository URL as its first parameter, and must be given
    it. *)
Theorem every_formula_starts_with_repoUrl :
  Forall (fun f =>
            hd_error (formula_parameters f) = Some RepoUrlParameter
            /\ hd_error (required_names f) = Some "repoUrl")
         pack_formulas.
Proof. repeat constructor. Qed.

(** X7: in every formula of the pack the parameters that must be given
    come first and the optional ones after them: the parameter list is
    its required parameters followed by its optional ones. *)
Theorem required_parameters_come_first :
  Forall (fun f =>
            formula_parameters f
            = filter is_required (formula_parameters f)
              ++ filter is_optional (formula_parameters f))
         pack_formulas.
Proof. repeat constructor. Qed.

(** X8: within a formula of the pack no two parameters share a name, so
    looking a parameter up by its name gives back its declaration; and no
    two formulas of the pack share a name. *)
Theorem parameters_found_by_name (f : FormulaDef) (p : ParamDef) :
  In f pack_formulas ->
  In p (formula_parameters f) ->
  find_param f (param_name p) = Some p
  /\ NoDup (map param_name (formula_parameters f))
  /\ NoDup (map formula_name pack_formulas).
Proof.
  intros Hf Hp.
  assert (Hnames : NoDup (map formula_name pack_formulas)).
  { simpl. repeat constructor; simpl; intuition discriminate. }
  simpl in Hf.
  destruct Hf as [<-|[<-|[<-|[<-|[]]]]]; simpl in Hp;
    (split; [|split; [|exact Hnames]]);
    try (simpl; repeat constructor; simpl; intuition discriminate);
    repeat (destruct Hp as [<-|Hp]; [reflexivity|]);
    contradiction.
Qed.

Lemma parameters_found_by_name_witness :
  find_param CreateIssue "labels" = Some LabelsParameter
  /\ NoDup (map param_name (formula_parameters CreateIssue))
  /\ NoDup (map formula_name pack_formulas).
Proof.
  apply (parameters_found_by_name CreateIssue LabelsParameter).
  - simpl. auto.
  - simpl. auto.
Defined.

(** X9: the API endpoint and the two OAuth URLs the file spells out are
    https URLs whose host is a network domain the pack has declared. *)
Theorem declared_urls_on_network_domains :
  Forall (fun u => exists d, https_host u = Some d /\ In d network_domains)
         declared_urls.
Proof.
  repeat constructor; eexists; (split; [reflexivity|left; reflexivity]).
Qed.

(* ===================================================================== *)
(** ** When the loop does run until the continuation is null *)
(* ===================================================================== *)

Section NextUrlContinuations.

Variable Context : Type.
Variable getRepos :
  Context -> option Continuation -> (ErrorKind + ReposResponse) * Context.

(** Every continuation the service returns has a truthy [nextUrl]. *)
Hypothesis continuations_have_nextUrl :
  forall context c r context' k,
    getRepos context c = (inr r, context') ->
    continuation r = Some k ->
    truthy (get_property "nextUrl" k) = true.

Lemma pages_from_exhausts context c rs context' :
  pages_from getRepos context c rs context' ->
  exhausts getRepos context c rs context'.
Proof.
  induction 1 as [context c r context' Hget Hstop
                 |context c r context' rs context'' Hget Hgo Hrun IH].
  - apply exhausts_last; [assumption|].
    destruct (continuation r) as [k|] eqn:Hk; [|reflexivity].
    simpl in Hstop.
    rewrite (continuations_have_nextUrl _ _ _ _ _ Hget Hk) in Hstop.
    discriminate.
  - destruct (continuation r) as [k|] eqn:Hk; [|discriminate].
    eapply exhausts_next; eassumption.
Qed.

End NextUrlContinuations.

(** X10: on a service whose continuations, when it returns one, always
    carry a truthy [nextUrl], the aggregation does loop until the
    returned continuation is null: whenever it resolves it has collected
    every page up to the first one without a continuation. *)
Theorem loops_until_null_with_nextUrl
    (Context : Type)
    (getRepos : Context -> option Continuation
                -> (ErrorKind + ReposResponse) * Context)
    (context : Context) :
  (forall context c r context' k,
      getRepos context c = (inr r, context') ->
      continuation r = Some k ->
      truthy (get_property "nextUrl" k) = true) ->
  loops_until_null getRepos context.
Proof.
  intros Hwf fuel results context' trace Hrun.
  unfold collect in Hrun.
  apply do_while_resolved_inv in Hrun as (rs & Hpages & -> & _ & _).
  exists rs. split; [|reflexivity].
  now apply pages_from_exhausts.
Qed.

Lemma loops_until_null_with_nextUrl_witness :
  loops_until_null two_page_service tt.
Proof.
  apply (loops_until_null_with_nextUrl unit two_page_service tt).
  intros context c r context' k Hget Hk.
  destruct c as [c|]; inversion Hget; subst; simpl in Hk.
  - discriminate Hk.
  - inversion Hk. reflexivity.
Defined.
